(** * Verification of [Search.binary_search_iterative] (src/binary_search.py)

    The Python function is embedded as a program in a small monad that
    threads the object heap, records every subscript evaluation
    [sorted_list[mid]] it performs, and propagates exceptions.  Python
    integers are unbounded, so [low], [high] and [mid] are modelled in [Z]. *)

From Equations Require Import Equations.
From Equations.Prop Require Import Logic.
From stdpp Require Import gmap list.
From Stdlib Require Import ZArith Lia.

Local Open Scope Z_scope.

(** ** Python values and comparisons *)

(** The two comparisons the function applies to elements: [==] and [<]. *)
Class PyOrd (A : Type) := {
  py_eq : A → A → bool;
  py_lt : A → A → bool
}.

(** The element type is totally ordered: [==] is an equivalence that [<]
    respects, and [<] is a strict order in which any two elements that are
    not [==] are comparable. *)
Class PyTotalOrder (A : Type) `{PyOrd A} : Prop := {
  py_eq_refl : ∀ x, py_eq x x = true;
  py_eq_sym : ∀ x y, py_eq x y = true → py_eq y x = true;
  py_eq_trans : ∀ x y z, py_eq x y = true → py_eq y z = true → py_eq x z = true;
  py_lt_irrefl : ∀ x, py_lt x x = false;
  py_lt_trans : ∀ x y z, py_lt x y = true → py_lt y z = true → py_lt x z = true;
  py_lt_eq_l : ∀ x y z, py_eq x y = true → py_lt x z = py_lt y z;
  py_lt_eq_r : ∀ x y z, py_eq x y = true → py_lt z x = py_lt z y;
  py_lt_total : ∀ x y, py_eq x y = false → py_lt x y = false → py_lt y x = true
}.

#[export] Instance Z_PyOrd : PyOrd Z := {| py_eq := Z.eqb; py_lt := Z.ltb |}.

(** ** Heap, exceptions and the execution monad *)

(** A reference to an object. *)
Definition loc := positive.

Inductive exn := IndexError | TypeError.

(** What a computation ends with: a value, or a raised exception. *)
Inductive outcome (X : Type) :=
| Return (x : X)
| Raise (e : exn).
Arguments Return {X} x.
Arguments Raise {X} e.

(** One evaluation of a subscript expression [obj[i]]. *)
Inductive event := EvGetItem (l : loc) (i : Z).

Definition ev_index (e : event) : Z := match e with EvGetItem _ i => i end.

(** The heap maps references to list objects. *)
Abbreviation heap A := (gmap loc (list A)).

Section Python.
Context {A : Type} `{PyOrd A}.

(** The result of running a computation from a heap: the heap it leaves,
    the subscript evaluations it made, in order, and its outcome. *)
Record run (X : Type) := Run {
  heap_after : heap A;
  events : list event;
  result : outcome X
}.
Arguments Run {X} _ _ _.
Arguments heap_after {X} _.
Arguments events {X} _.
Arguments result {X} _.

Definition py (X : Type) : Type := heap A → run X.

Definition py_return {X} (x : X) : py X := λ h, Run h [] (Return x).

Definition py_bind {X Y} (m : py X) (k : X → py Y) : py Y := λ h,
  let r := m h in
  match result r with
  | Return x =>
      let r' := k x (heap_after r) in
      Run (heap_after r') (events r ++ events r') (result r')
  | Raise e => Run (heap_after r) (events r) (Raise e)
  end.

#[local] Notation "'let*' x ':=' m 'in' k" := (py_bind m (λ x, k))
  (at level 10, x name, m at level 100, k at level 200).

(** [len(obj)]: defined on list objects. *)
Definition py_len (l : loc) : py Z := λ h,
  match h !! l with
  | Some xs => Run h [] (Return (Z.of_nat (length xs)))
  | None => Run h [] (Raise TypeError)
  end.

(** Subscript of a list value: a negative index counts from the end, and an
    index that is still out of range selects nothing. *)
Definition list_getitem (xs : list A) (i : Z) : option A :=
  let n := Z.of_nat (length xs) in
  let j := if i <? 0 then i + n else i in
  if (j <? 0) || (n <=? j) then None else xs !! Z.to_nat j.

(** [obj[i]]: reads the list object, raising [IndexError] out of range. *)
Definition py_getitem (l : loc) (i : Z) : py A := λ h,
  match h !! l with
  | Some xs =>
      match list_getitem xs i with
      | Some v => Run h [EvGetItem l i] (Return v)
      | None => Run h [EvGetItem l i] (Raise IndexError)
      end
  | None => Run h [EvGetItem l i] (Raise TypeError)
  end.

(** ** The function *)

(** The [while low <= high] loop, lines 8-17, from the values of [low] and
    [high] at the loop test. *)
Equations? while_loop (sorted_list : loc) (target : A) (low high : Z) : py Z
  by wf (Z.to_nat (high + 1 - low)) lt :=
while_loop sorted_list target low high with inspect (low <=? high) := {
  | exist _ true Hcond =>
      let mid := (low + high) / 2 in
      let* mid_value := py_getitem sorted_list mid in
      if py_eq mid_value target then py_return mid
      else if py_lt mid_value target then
        while_loop sorted_list target (mid + 1) high
      else
        while_loop sorted_list target low (mid - 1)
  | exist _ false Hcond => py_return (-1) }.
Proof.
  all: apply Z.leb_le in Hcond;
    assert (low <= (low + high) / 2 <= high)
      by (split; [apply Z.div_le_lower_bound | apply Z.div_le_upper_bound]; lia);
    lia.
Qed.

Definition binary_search_iterative (sorted_list : loc) (target : A) : py Z :=
  let* n := py_len sorted_list in
  let low := 0 in
  let high := n - 1 in
  while_loop sorted_list target low high.

(** ** Sortedness *)

(** [x <= y] in the total order: [y] is not below [x]. *)
Definition py_le (x y : A) : bool := negb (py_lt y x).

(** Non-decreasing order: each element is [<=] its successor. *)
Fixpoint is_sorted (xs : list A) : bool :=
  match xs with
  | x :: (y :: _) as tl => py_le x y && is_sorted tl
  | _ => true
  end.

(** Strictly increasing order: each element is [<] its successor, so no two
    elements are [==]. *)
Fixpoint is_strictly_sorted (xs : list A) : bool :=
  match xs with
  | x :: (y :: _) as tl => py_lt x y && is_strictly_sorted tl
  | _ => true
  end.

(** The number of loop iterations of a run: every iteration evaluates
    [sorted_list[mid]] exactly once, and nothing else does. *)
Definition iterations {X} (r : run X) : nat := length (events r).

(** A returned value is [-1] or an index in the interval holding a match. *)
Definition sound_result (xs : list A) (target : A) (low high : Z) (z : Z) : Prop :=
  z = -1 ∨
  (low <= z <= high ∧ ∃ w, xs !! Z.to_nat z = Some w ∧ py_eq w target = true).

(** The bound for an interval of [s] indices: none when it is empty. *)
Definition iteration_bound (s : Z) : Z :=
  if s <=? 0 then 0 else Z.log2 s + 1.

(** ** The algorithm as the specification words it

    Section 4.1 of the specification describes the search over a sequence
    value, with a result that is an index or the distinguished "not found":
    bounds [low = 0] and [high = length - 1]; while [low <= high], [mid] is
    the floor of their sum by two; an equal element ends the search with
    [mid], a smaller one sets [low = mid + 1], a greater one sets
    [high = mid - 1]; an empty interval ends it with "not found".  Where the
    description is silent (no element at [mid], or an element that is neither
    equal, smaller nor greater) the function gives [None]. *)

Inductive search_result :=
| Index (i : Z)
| NotFound.

(** The element at a position of the sequence, if there is one. *)
Definition element_at (xs : list A) (i : Z) : option A :=
  if i <? 0 then None else xs !! Z.to_nat i.

Equations? spec_search (xs : list A) (target : A) (low high : Z)
  : option search_result by wf (Z.to_nat (high + 1 - low)) lt :=
spec_search xs target low high with inspect (low <=? high) := {
  | exist _ true Hcond =>
      let mid := (low + high) / 2 in
      match element_at xs mid with
      | Some element =>
          if py_eq element target then Some (Index mid)
          else if py_lt element target then spec_search xs target (mid + 1) high
          else if py_lt target element then spec_search xs target low (mid - 1)
          else None
      | None => None
      end
  | exist _ false Hcond => Some NotFound }.
Proof.
  all: apply Z.leb_le in Hcond;
    assert (low <= (low + high) / 2 <= high)
      by (split; [apply Z.div_le_lower_bound | apply Z.div_le_upper_bound]; lia);
    lia.
Qed.

Definition spec_binary_search (xs : list A) (target : A) : option search_result :=
  spec_search xs target 0 (Z.of_nat (length xs) - 1).

(** How the Python function signals each result: the index itself, or [-1]. *)
Definition signal (r : search_result) : Z :=
  match r with
  | Index i => i
  | NotFound => -1
  end.

End Python.

Arguments run A X : clear implicits.
Arguments py A X : clear implicits.
Arguments Run {A X} _ _ _.
Arguments heap_after {A X} _.
Arguments events {A X} _.
Arguments result {A X} _.

(** ** Concrete inputs *)

(** The list of the specification's example, and a heap holding it. *)
Definition example_list : list Z := [1; 3; 5; 7; 9; 11].
Definition example_loc : loc := 1%positive.
Definition example_heap : heap Z := {[ example_loc := example_list ]}.

(** A heap holding the empty list. *)
Definition empty_list_heap : heap Z := {[ example_loc := [] ]}.

(** A sorted list with repeated values. *)
Definition duplicates_list : list Z := [2; 4; 4; 4; 8].
Definition duplicates_heap : heap Z := {[ example_loc := duplicates_list ]}.

(** A list with a single element. *)
Definition singleton_heap : heap Z := {[ example_loc := [7] ]}.

(** A list that is not sorted. *)
Definition unsorted_list : list Z := [5; 1; 4].
Definition unsorted_heap : heap Z := {[ example_loc := unsorted_list ]}.

(** * Properties *)

Section PythonFacts.
Context {A : Type} `{PyOrd A}.

(** ** Unfolding the loop *)

Lemma while_loop_run (sorted_list : loc) (target : A) (low high : Z) (h : heap A) :
  while_loop sorted_list target low high h =
    if low <=? high then
      let mid := (low + high) / 2 in
      match h !! sorted_list with
      | None => Run h [EvGetItem sorted_list mid] (Raise TypeError)
      | Some xs =>
          match list_getitem xs mid with
          | None => Run h [EvGetItem sorted_list mid] (Raise IndexError)
          | Some v =>
              if py_eq v target then Run h [EvGetItem sorted_list mid] (Return mid)
              else
                let r :=
                  if py_lt v target
                  then while_loop sorted_list target (mid + 1) high h
                  else while_loop sorted_list target low (mid - 1) h in
                Run (heap_after r) (EvGetItem sorted_list mid :: events r) (result r)
          end
      end
    else Run h [] (Return (-1)).
Proof.
  rewrite while_loop_equation_1.
  unfold while_loop_unfold_clause_1, inspect.
  destruct (low <=? high); cbn; [|reflexivity].
  unfold py_bind, py_getitem.
  destruct (h !! sorted_list) as [xs|]; cbn; [|reflexivity].
  destruct (list_getitem xs ((low + high) / 2)) as [v|]; cbn; [|reflexivity].
  destruct (py_eq v target); cbn; [reflexivity|].
  destruct (py_lt v target); reflexivity.
Qed.

(** ** Arithmetic of the interval *)

Lemma mid_bounds (low high : Z) :
  low <= high → low <= (low + high) / 2 <= high.
Proof.
  intros Hle. split.
  - apply Z.div_le_lower_bound; lia.
  - apply Z.div_le_upper_bound; lia.
Qed.

(** An iteration that finds no match leaves an interval of at most half the
    size, whichever bound it moves. *)
Lemma interval_halves (low high : Z) :
  low <= high →
  let mid := (low + high) / 2 in
  high + 1 - (mid + 1) <= (high + 1 - low) / 2 ∧
  (mid - 1) + 1 - low <= (high + 1 - low) / 2.
Proof.
  intros Hle mid. subst mid.
  pose proof (Z.div_mod (low + high) 2 ltac:(lia)) as Hm.
  pose proof (Z.mod_pos_bound (low + high) 2 ltac:(lia)) as Hb.
  split; apply Z.div_le_lower_bound; lia.
Qed.

(** The overflow-safe midpoint is the same number. *)
Lemma mid_alt (low high : Z) : low + (high - low) / 2 = (low + high) / 2.
Proof.
  replace (low + high) with (high - low + low * 2) by lia.
  rewrite Z.div_add by lia. lia.
Qed.

(** Induction on the size of the interval [[low, high]]. *)
Lemma interval_ind (Q : Z → Z → Prop) :
  (∀ low high,
     (∀ low' high',
        (Z.to_nat (high' + 1 - low') < Z.to_nat (high + 1 - low))%nat →
        Q low' high') →
     Q low high) →
  ∀ low high, Q low high.
Proof.
  intros Hstep low high.
  remember (Z.to_nat (high + 1 - low)) as n eqn:Hn.
  revert low high Hn.
  induction n as [n IH] using lt_wf_ind.
  intros low high ->. apply Hstep.
  intros low' high' Hlt. eapply IH; [exact Hlt | reflexivity].
Qed.

(** ** Subscripts *)

Lemma list_getitem_in_range (xs : list A) (i : Z) :
  0 <= i < Z.of_nat (length xs) →
  list_getitem xs i = xs !! Z.to_nat i ∧ is_Some (xs !! Z.to_nat i).
Proof.
  intros [Hlo Hhi]. unfold list_getitem.
  destruct (Z.ltb_spec i 0) as [?|_]; [lia|].
  destruct (Z.ltb_spec i 0) as [?|_]; [lia|].
  destruct (Z.leb_spec (Z.of_nat (length xs)) i) as [?|_]; [lia|].
  split; [reflexivity|]. apply lookup_lt_is_Some. lia.
Qed.

(** ** The loop leaves the heap as it found it *)

Lemma while_loop_heap (sorted_list : loc) (target : A) (h : heap A) (low high : Z) :
  heap_after (while_loop sorted_list target low high h) = h.
Proof.
  revert low high. apply interval_ind. intros low high IH.
  rewrite while_loop_run.
  destruct (Z.leb_spec low high) as [Hle|Hgt]; [|reflexivity].
  pose proof (mid_bounds low high Hle) as Hmid. cbn zeta.
  destruct (h !! sorted_list) as [xs|]; [|reflexivity].
  destruct (list_getitem xs ((low + high) / 2)) as [v|]; [|reflexivity].
  destruct (py_eq v target); [reflexivity|]. cbn.
  destruct (py_lt v target); apply IH; lia.
Qed.

(** ** Induction over an in-range run of the loop *)

Section LoopInduction.
Variables (sorted_list : loc) (target : A) (h : heap A) (xs : list A).
Hypothesis Hlist : h !! sorted_list = Some xs.
Variable P : Z → Z → run A Z → Prop.

Hypothesis Pexit : ∀ low high,
  high < low → P low high (Run h [] (Return (-1))).
Hypothesis Pfound : ∀ low high v,
  0 <= low → low <= high → high < Z.of_nat (length xs) →
  xs !! Z.to_nat ((low + high) / 2) = Some v →
  py_eq v target = true →
  P low high (Run h [EvGetItem sorted_list ((low + high) / 2)]
                (Return ((low + high) / 2))).
Hypothesis Pright : ∀ low high v r,
  0 <= low → low <= high → high < Z.of_nat (length xs) →
  xs !! Z.to_nat ((low + high) / 2) = Some v →
  py_eq v target = false → py_lt v target = true →
  r = while_loop sorted_list target ((low + high) / 2 + 1) high h →
  P ((low + high) / 2 + 1) high r →
  P low high (Run h (EvGetItem sorted_list ((low + high) / 2) :: events r)
                (result r)).
Hypothesis Pleft : ∀ low high v r,
  0 <= low → low <= high → high < Z.of_nat (length xs) →
  xs !! Z.to_nat ((low + high) / 2) = Some v →
  py_eq v target = false → py_lt v target = false →
  r = while_loop sorted_list target low ((low + high) / 2 - 1) h →
  P low ((low + high) / 2 - 1) r →
  P low high (Run h (EvGetItem sorted_list ((low + high) / 2) :: events r)
                (result r)).

Lemma while_loop_ind_in_range (low high : Z) :
  0 <= low → high < Z.of_nat (length xs) →
  P low high (while_loop sorted_list target low high h).
Proof.
  revert low high. apply (interval_ind (λ low high, 0 <= low → _ → _)).
  intros low high IH Hlow Hhigh.
  rewrite while_loop_run.
  destruct (Z.leb_spec low high) as [Hle|Hgt]; [|by apply Pexit].
  pose proof (mid_bounds low high Hle) as Hmid. cbn zeta.
  rewrite Hlist.
  destruct (list_getitem_in_range xs ((low + high) / 2) ltac:(lia))
    as [-> [v Hv]].
  rewrite Hv.
  destruct (py_eq v target) eqn:Heq; [by eapply Pfound|].
  cbn zeta.
  destruct (py_lt v target) eqn:Hlt; rewrite while_loop_heap.
  - eapply Pright; eauto. apply IH; lia.
  - eapply Pleft; eauto. apply IH; lia.
Qed.

End LoopInduction.

(** ** The call in terms of the loop *)

Lemma binary_search_iterative_run (sorted_list : loc) (target : A) (h : heap A) :
  binary_search_iterative sorted_list target h =
    match h !! sorted_list with
    | Some xs =>
        let r := while_loop sorted_list target 0 (Z.of_nat (length xs) - 1) h in
        Run h (events r) (result r)
    | None => Run h [] (Raise TypeError)
    end.
Proof.
  unfold binary_search_iterative, py_bind, py_len.
  destruct (h !! sorted_list) as [xs|]; cbn; [|reflexivity].
  by rewrite while_loop_heap.
Qed.

(** ** What an in-range run reads and returns *)

Lemma while_loop_safe (sorted_list : loc) (target : A) (h : heap A) (xs : list A)
    (low high : Z) :
  h !! sorted_list = Some xs →
  0 <= low → high < Z.of_nat (length xs) →
  let r := while_loop sorted_list target low high h in
  Forall (λ e, ∃ i, e = EvGetItem sorted_list i ∧ low <= i <= high) (events r) ∧
  ∃ z, result r = Return z ∧ sound_result xs target low high z.
Proof.
  intros Hlist. cbn zeta.
  apply (while_loop_ind_in_range sorted_list target h xs Hlist
    (λ low high r,
       Forall (λ e, ∃ i, e = EvGetItem sorted_list i ∧ low <= i <= high) (events r) ∧
       ∃ z, result r = Return z ∧ sound_result xs target low high z)); clear low high.
  - intros low high Hgt. split; [constructor|].
    exists (-1). split; [reflexivity | by left].
  - intros low high v Hlow Hle Hhigh Hv Heq.
    pose proof (mid_bounds low high Hle) as Hmid. cbn. split.
    + repeat constructor. eauto.
    + eexists. split; [reflexivity|]. right. eauto.
  - intros low high v r Hlow Hle Hhigh Hv Heq Hlt _ [Hev (z & Hz & Hs)].
    pose proof (mid_bounds low high Hle) as Hmid. cbn. split.
    + constructor; [eauto|].
      eapply Forall_impl; [exact Hev|]. cbn. intros e (i & -> & Hi).
      exists i. split; [reflexivity | lia].
    + exists z. split; [exact Hz|].
      destruct Hs as [->|[Hr Hw]]; [by left | right; split; [lia | exact Hw]].
  - intros low high v r Hlow Hle Hhigh Hv Heq Hlt _ [Hev (z & Hz & Hs)].
    pose proof (mid_bounds low high Hle) as Hmid. cbn. split.
    + constructor; [eauto|].
      eapply Forall_impl; [exact Hev|]. cbn. intros e (i & -> & Hi).
      exists i. split; [reflexivity | lia].
    + exists z. split; [exact Hz|].
      destruct Hs as [->|[Hr Hw]]; [by left | right; split; [lia | exact Hw]].
Qed.

(** ** The number of iterations *)

Lemma log2_half (s : Z) : 2 <= s → Z.log2 (s / 2) + 1 = Z.log2 s.
Proof.
  intros Hs. rewrite <- Z.div2_div, Z.div2_spec, Z.log2_shiftr by lia.
  pose proof (Z.log2_le_mono 2 s ltac:(lia)) as Hl.
  change (Z.log2 2) with 1 in Hl. lia.
Qed.

Lemma iteration_bound_step (s s' : Z) :
  1 <= s → s' <= s / 2 → 1 + iteration_bound s' <= iteration_bound s.
Proof.
  intros Hs Hs'. unfold iteration_bound.
  destruct (Z.leb_spec s 0) as [?|_]; [lia|].
  pose proof (Z.log2_nonneg s) as Hnn.
  destruct (Z.leb_spec s' 0) as [?|Hpos]; [lia|].
  assert (2 <= s) as H2.
  { destruct (Z.le_gt_cases 2 s) as [?|Hlt]; [assumption|].
    assert (s = 1) as -> by lia. change (1 / 2) with 0 in Hs'. lia. }
  pose proof (Z.log2_le_mono s' (s / 2) Hs') as Hm.
  pose proof (log2_half s H2). lia.
Qed.

Lemma while_loop_iterations (sorted_list : loc) (target : A) (h : heap A)
    (xs : list A) (low high : Z) :
  h !! sorted_list = Some xs →
  0 <= low → high < Z.of_nat (length xs) →
  Z.of_nat (iterations (while_loop sorted_list target low high h))
    <= iteration_bound (high + 1 - low).
Proof.
  intros Hlist.
  apply (while_loop_ind_in_range sorted_list target h xs Hlist
    (λ low high r, Z.of_nat (iterations r) <= iteration_bound (high + 1 - low)));
    clear low high; unfold iterations; cbn [events length].
  - intros low high Hgt. unfold iteration_bound.
    destruct (Z.leb_spec (high + 1 - low) 0); lia.
  - intros low high v Hlow Hle Hhigh Hv Heq.
    pose proof (iteration_bound_step (high + 1 - low) 0 ltac:(lia)
      ltac:(apply Z.div_pos; lia)) as Hb.
    change (iteration_bound 0) with 0 in Hb. lia.
  - intros low high v r Hlow Hle Hhigh Hv Heq Hlt _ IH.
    pose proof (interval_halves low high Hle) as [Hr _].
    pose proof (iteration_bound_step (high + 1 - low) _ ltac:(lia) Hr). lia.
  - intros low high v r Hlow Hle Hhigh Hv Heq Hlt _ IH.
    pose proof (interval_halves low high Hle) as [_ Hl].
    pose proof (iteration_bound_step (high + 1 - low) _ ltac:(lia) Hl). lia.
Qed.

(** ** The run reads only the list *)

(** Two runs over lists with the same contents, wherever they are stored
    and whatever else the heaps hold, probe the same indices and end with
    the same outcome. *)
Lemma while_loop_heap_indep (l1 l2 : loc) (target : A) (h1 h2 : heap A)
    (low high : Z) :
  h1 !! l1 = h2 !! l2 →
  ev_index <$> events (while_loop l1 target low high h1) =
    ev_index <$> events (while_loop l2 target low high h2) ∧
  result (while_loop l1 target low high h1) =
    result (while_loop l2 target low high h2).
Proof.
  intros Hsame. revert low high.
  apply (interval_ind (λ low high, _ ∧ _)). intros low high IH.
  rewrite !while_loop_run, <- Hsame.
  destruct (Z.leb_spec low high) as [Hle|Hgt]; [|by split].
  pose proof (mid_bounds low high Hle) as Hmid. cbn zeta.
  destruct (h1 !! l1) as [xs|]; [|by split].
  destruct (list_getitem xs ((low + high) / 2)) as [v|]; [|by split].
  destruct (py_eq v target); [by split|]. cbn.
  destruct (py_lt v target).
  - destruct (IH ((low + high) / 2 + 1) high ltac:(lia)) as [-> ->]. by split.
  - destruct (IH low ((low + high) / 2 - 1) ltac:(lia)) as [-> ->]. by split.
Qed.

Lemma binary_search_heap_indep (l1 l2 : loc) (target : A) (h1 h2 : heap A) :
  h1 !! l1 = h2 !! l2 →
  result (binary_search_iterative l1 target h1) =
    result (binary_search_iterative l2 target h2).
Proof.
  intros Hsame. rewrite !binary_search_iterative_run, <- Hsame.
  destruct (h1 !! l1) as [xs|] eqn:Hl1; [|reflexivity]. cbn.
  apply while_loop_heap_indep. by rewrite Hl1.
Qed.

(** The call on a list: it returns, and what it returns is sound. *)
Lemma binary_search_iterative_sound (sorted_list : loc) (target : A)
    (h : heap A) (xs : list A) :
  h !! sorted_list = Some xs →
  ∃ z, result (binary_search_iterative sorted_list target h) = Return z ∧
       sound_result xs target 0 (Z.of_nat (length xs) - 1) z.
Proof.
  intros Hlist. rewrite binary_search_iterative_run, Hlist. cbn.
  by apply (while_loop_safe sorted_list target h xs); [|lia..].
Qed.

Lemma binary_search_iterative_heap (sorted_list : loc) (target : A) (h : heap A) :
  heap_after (binary_search_iterative sorted_list target h) = h.
Proof.
  rewrite binary_search_iterative_run. by destruct (h !! sorted_list).
Qed.

Lemma binary_search_iterative_nil (sorted_list : loc) (target : A) (h : heap A) :
  h !! sorted_list = Some [] →
  binary_search_iterative sorted_list target h = Run h [] (Return (-1)).
Proof.
  intros Hlist. rewrite binary_search_iterative_run, Hlist. cbn.
  rewrite while_loop_run. reflexivity.
Qed.

(** ** The loop and the specification's algorithm *)

Lemma element_at_in_range (xs : list A) (i : Z) (v : A) :
  0 <= i → xs !! Z.to_nat i = Some v → element_at xs i = Some v.
Proof.
  intros Hi Hv. unfold element_at.
  by destruct (Z.ltb_spec i 0) as [?|_]; [lia|].
Qed.

Lemma spec_search_run (xs : list A) (target : A) (low high : Z) :
  spec_search xs target low high =
    if low <=? high then
      let mid := (low + high) / 2 in
      match element_at xs mid with
      | Some element =>
          if py_eq element target then Some (Index mid)
          else if py_lt element target then spec_search xs target (mid + 1) high
          else if py_lt target element then spec_search xs target low (mid - 1)
          else None
      | None => None
      end
    else Some NotFound.
Proof.
  rewrite spec_search_equation_1.
  unfold spec_search_unfold_clause_1, inspect.
  destruct (low <=? high); reflexivity.
Qed.

(** ** Sorted lists over a total order *)

Section Ordered.
Context `{!PyTotalOrder A}.

Lemma py_le_trans (x y z : A) :
  py_le x y = true → py_le y z = true → py_le x z = true.
Proof.
  unfold py_le. rewrite !negb_true_iff. intros Hyx Hzy.
  destruct (py_lt z x) eqn:Hzx; [|reflexivity].
  destruct (py_eq y x) eqn:Heq.
  - rewrite <- (py_lt_eq_r y x z Heq), Hzy in Hzx. discriminate.
  - pose proof (py_lt_total y x Heq Hyx) as Hxy.
    rewrite (py_lt_trans z x y Hzx Hxy) in Hzy. discriminate.
Qed.

Lemma py_le_refl (x : A) : py_le x x = true.
Proof. unfold py_le. by rewrite py_lt_irrefl. Qed.

Lemma is_sorted_tail (x : A) (xs : list A) :
  is_sorted (x :: xs) = true → is_sorted xs = true.
Proof.
  destruct xs as [|y ys]; [reflexivity|]. cbn [is_sorted].
  rewrite andb_true_iff. tauto.
Qed.

Lemma is_sorted_head (x : A) (xs : list A) (j : nat) (y : A) :
  is_sorted (x :: xs) = true → (x :: xs) !! j = Some y → py_le x y = true.
Proof.
  revert x xs. induction j as [|j IH]; intros x xs Hs Hj.
  - cbn in Hj. injection Hj as <-. apply py_le_refl.
  - destruct xs as [|x' xs]; [discriminate|].
    cbn [is_sorted] in Hs. apply andb_true_iff in Hs as [Hxx' Hs].
    eapply py_le_trans; [exact Hxx'|]. eapply IH; [exact Hs | exact Hj].
Qed.

(** In a sorted list no element is below an earlier one. *)
Lemma is_sorted_lookup (xs : list A) (i j : nat) (x y : A) :
  is_sorted xs = true → (i <= j)%nat →
  xs !! i = Some x → xs !! j = Some y → py_lt y x = false.
Proof.
  revert xs j. induction i as [|i IH]; intros xs j Hs Hij Hi Hj.
  - destruct xs as [|x0 xs]; [discriminate|]. cbn in Hi. injection Hi as ->.
    pose proof (is_sorted_head x xs j y Hs Hj) as Hle.
    unfold py_le in Hle. by apply negb_true_iff in Hle.
  - destruct xs as [|x0 xs]; [discriminate|].
    destruct j as [|j]; [lia|].
    eapply (IH xs j); [by eapply is_sorted_tail | lia | exact Hi | exact Hj].
Qed.

(** A match inside the interval is never discarded. *)
Lemma while_loop_complete (sorted_list : loc) (target : A) (h : heap A)
    (xs : list A) (low high : Z) :
  h !! sorted_list = Some xs → is_sorted xs = true →
  0 <= low → high < Z.of_nat (length xs) →
  (∃ k w, low <= k <= high ∧ xs !! Z.to_nat k = Some w ∧ py_eq w target = true) →
  result (while_loop sorted_list target low high h) ≠ Return (-1).
Proof.
  intros Hlist Hsorted.
  apply (while_loop_ind_in_range sorted_list target h xs Hlist
    (λ low high r,
       (∃ k w, low <= k <= high ∧ xs !! Z.to_nat k = Some w ∧ py_eq w target = true) →
       result r ≠ Return (-1))); clear low high.
  - intros low high Hgt (k & _ & Hk & _). lia.
  - intros low high v Hlow Hle Hhigh Hv Heq _. cbn.
    pose proof (mid_bounds low high Hle). intros [= ?]. lia.
  - intros low high v r Hlow Hle Hhigh Hv Heq Hlt _ IH (k & w & Hk & Hw & Hwt).
    cbn. apply IH. exists k, w. split; [|by split].
    destruct (Z.le_gt_cases k ((low + high) / 2)) as [Hkm|Hkm]; [|lia].
    exfalso.
    pose proof (is_sorted_lookup xs (Z.to_nat k) (Z.to_nat ((low + high) / 2))
      w v Hsorted ltac:(lia) Hw Hv) as Hvw.
    rewrite (py_lt_eq_r w target v Hwt), Hlt in Hvw. discriminate.
  - intros low high v r Hlow Hle Hhigh Hv Heq Hlt _ IH (k & w & Hk & Hw & Hwt).
    cbn. apply IH. exists k, w. split; [|by split].
    destruct (Z.le_gt_cases ((low + high) / 2) k) as [Hkm|Hkm]; [|lia].
    exfalso.
    pose proof (is_sorted_lookup xs (Z.to_nat ((low + high) / 2)) (Z.to_nat k)
      v w Hsorted ltac:(lia) Hv Hw) as Hwv.
    rewrite (py_lt_eq_l w target v Hwt), (py_lt_total v target Heq Hlt) in Hwv.
    discriminate.
Qed.

(** Over a total order the loop is the specification's algorithm: the
    description's three cases are the only ones, and the value returned is
    the signal of the described result. *)
Lemma while_loop_refines (sorted_list : loc) (target : A) (h : heap A)
    (xs : list A) (low high : Z) :
  h !! sorted_list = Some xs →
  0 <= low → high < Z.of_nat (length xs) →
  ∃ r, spec_search xs target low high = Some r ∧
       result (while_loop sorted_list target low high h) = Return (signal r) ∧
       (∀ i, r = Index i → low <= i <= high).
Proof.
  intros Hlist.
  apply (while_loop_ind_in_range sorted_list target h xs Hlist
    (λ low high run,
       ∃ r, spec_search xs target low high = Some r ∧
            result run = Return (signal r) ∧
            (∀ i, r = Index i → low <= i <= high))); clear low high.
  - intros low high Hgt. exists NotFound. rewrite spec_search_run.
    destruct (Z.leb_spec low high) as [?|_]; [lia|].
    split; [done|]. split; [done|]. intros i [=].
  - intros low high v Hlow Hle Hhigh Hv Heq.
    pose proof (mid_bounds low high Hle) as Hmid.
    exists (Index ((low + high) / 2)). rewrite spec_search_run.
    destruct (Z.leb_spec low high) as [_|?]; [|lia]. cbn zeta.
    rewrite (element_at_in_range xs _ v) by (lia || done). rewrite Heq.
    split; [done|]. split; [done|]. intros i [= <-]. lia.
  - intros low high v run Hlow Hle Hhigh Hv Heq Hlt _ (r & Hr & Hres & Hidx).
    pose proof (mid_bounds low high Hle) as Hmid.
    exists r. rewrite spec_search_run.
    destruct (Z.leb_spec low high) as [_|?]; [|lia]. cbn zeta.
    rewrite (element_at_in_range xs _ v) by (lia || done). rewrite Heq, Hlt.
    split; [done|]. split; [done|]. intros i Hi. specialize (Hidx i Hi). lia.
  - intros low high v run Hlow Hle Hhigh Hv Heq Hlt _ (r & Hr & Hres & Hidx).
    pose proof (mid_bounds low high Hle) as Hmid.
    exists r. rewrite spec_search_run.
    destruct (Z.leb_spec low high) as [_|?]; [|lia]. cbn zeta.
    rewrite (element_at_in_range xs _ v) by (lia || done).
    rewrite Heq, Hlt, (py_lt_total v target Heq Hlt).
    split; [done|]. split; [done|]. intros i Hi. specialize (Hidx i Hi). lia.
Qed.

End Ordered.

End PythonFacts.

(** Python integers under [==] and [<] are totally ordered. *)
#[export] Instance Z_PyTotalOrder : PyTotalOrder Z.
Proof.
  split; unfold py_eq, py_lt, Z_PyOrd; intros; lia.
Qed.

(** * The search on a list held in the heap *)

(** C1. For every list sorted in non-decreasing order and every index [i] in
    range, searching for the element at [i] returns an index [j] whose
    element is [==] to it: the call never returns [-1] when the target
    occurs in the list. *)
Theorem binary_search_finds_present {A : Type} `{PyTotalOrder A}
    (h : heap A) (sorted_list : loc) (xs : list A) (i : nat) (x : A) :
  h !! sorted_list = Some xs →
  is_sorted xs = true →
  xs !! i = Some x →
  ∃ (j : nat) (w : A),
    result (binary_search_iterative sorted_list x h) = Return (Z.of_nat j) ∧
    xs !! j = Some w ∧ py_eq w x = true.
Proof.
  intros Hlist Hsorted Hi.
  destruct (binary_search_iterative_sound sorted_list x h xs Hlist)
    as (z & Hz & Hsound).
  pose proof (lookup_lt_Some _ _ _ Hi) as Hlen.
  assert (z ≠ -1) as Hfound.
  { intros ->. revert Hz. rewrite binary_search_iterative_run, Hlist. cbn.
    apply while_loop_complete with (xs := xs); [done | done | lia | lia |].
    exists (Z.of_nat i), x. rewrite Nat2Z.id.
    split; [lia|]. split; [done | apply py_eq_refl]. }
  destruct Hsound as [?|[Hrange (w & Hw & Heq)]]; [done|].
  exists (Z.to_nat z), w. rewrite Z2Nat.id by lia. done.
Qed.

Lemma binary_search_finds_present_witness :
  (example_heap !! example_loc = Some example_list ∧
   is_sorted example_list = true ∧
   example_list !! 3%nat = Some 7) ∧
  ∃ (j : nat) (w : Z),
    result (binary_search_iterative example_loc 7 example_heap)
      = Return (Z.of_nat j) ∧
    example_list !! j = Some w ∧ py_eq w 7 = true.
Proof.
  split; [repeat split|].
  apply (binary_search_finds_present example_heap example_loc example_list
           3%nat 7); reflexivity.
Defined.

(** C2. For every sorted list and every value that no element of the list is
    [==] to, the call returns [-1], the "not found" signal. *)
Theorem binary_search_absent {A : Type} `{PyOrd A}
    (h : heap A) (sorted_list : loc) (xs : list A) (v : A) :
  h !! sorted_list = Some xs →
  is_sorted xs = true →
  (∀ (i : nat) (w : A), xs !! i = Some w → py_eq w v = false) →
  result (binary_search_iterative sorted_list v h) = Return (-1).
Proof.
  intros Hlist _ Habsent.
  destruct (binary_search_iterative_sound sorted_list v h xs Hlist)
    as (z & Hz & Hsound).
  destruct Hsound as [->|[_ (w & Hw & Heq)]]; [exact Hz|].
  rewrite (Habsent _ _ Hw) in Heq. discriminate.
Qed.

Lemma binary_search_absent_witness :
  (example_heap !! example_loc = Some example_list ∧
   is_sorted example_list = true ∧
   (∀ (i : nat) (w : Z), example_list !! i = Some w → py_eq w 4 = false)) ∧
  result (binary_search_iterative example_loc 4 example_heap) = Return (-1).
Proof.
  assert (∀ (i : nat) (w : Z), example_list !! i = Some w → py_eq w 4 = false)
    as Habsent.
  { intros i w Hi.
    do 6 (destruct i as [|i]; [injection Hi as <-; reflexivity|]).
    discriminate. }
  split; [repeat split; [exact Habsent]|].
  apply (binary_search_absent example_heap example_loc example_list 4);
    [reflexivity | reflexivity | exact Habsent].
Defined.

(** C3. On the empty list the call returns [-1] for every target, without
    reading an element. *)
Theorem binary_search_empty {A : Type} `{PyOrd A}
    (h : heap A) (sorted_list : loc) (v : A) :
  h !! sorted_list = Some [] →
  binary_search_iterative sorted_list v h = Run h [] (Return (-1)).
Proof.
  apply binary_search_iterative_nil.
Qed.

Lemma binary_search_empty_witness :
  empty_list_heap !! example_loc = Some [] ∧
  binary_search_iterative example_loc 0 empty_list_heap
    = Run empty_list_heap [] (Return (-1)).
Proof.
  split; [reflexivity|].
  apply (binary_search_empty empty_list_heap example_loc 0). reflexivity.
Defined.

(** C4. For every sorted list and every target the call returns either [-1]
    or an index in [[0, length - 1]] whose element is [==] to the target; so
    also when several elements equal the target, whichever index is returned
    holds one of them. *)
Theorem binary_search_result_range {A : Type} `{PyOrd A}
    (h : heap A) (sorted_list : loc) (xs : list A) (target : A) :
  h !! sorted_list = Some xs →
  is_sorted xs = true →
  ∃ z : Z,
    result (binary_search_iterative sorted_list target h) = Return z ∧
    (z = -1 ∨
     (0 <= z <= Z.of_nat (length xs) - 1 ∧
      ∃ w : A, xs !! Z.to_nat z = Some w ∧ py_eq w target = true)).
Proof.
  intros Hlist _.
  exact (binary_search_iterative_sound sorted_list target h xs Hlist).
Qed.

Lemma binary_search_result_range_witness :
  (duplicates_heap !! example_loc = Some duplicates_list ∧
   is_sorted duplicates_list = true) ∧
  ∃ z : Z,
    result (binary_search_iterative example_loc 4 duplicates_heap) = Return z ∧
    (z = -1 ∨
     (0 <= z <= Z.of_nat (length duplicates_list) - 1 ∧
      ∃ w : Z, duplicates_list !! Z.to_nat z = Some w ∧ py_eq w 4 = true)).
Proof.
  split; [repeat split|].
  apply (binary_search_result_range duplicates_heap example_loc
           duplicates_list 4); reflexivity.
Defined.

(** C5. The call on any list returns, and its loop runs at most
    [floor (log2 n) + 1] times for a list of [n > 0] elements (not at all
    for the empty list): an iteration without a match leaves at most half of
    the interval ([interval_halves], [iteration_bound_step]). *)
Theorem binary_search_iterations {A : Type} `{PyOrd A}
    (h : heap A) (sorted_list : loc) (xs : list A) (target : A) :
  h !! sorted_list = Some xs →
  let r := binary_search_iterative sorted_list target h in
  (∃ z : Z, result r = Return z) ∧
  (xs = [] → iterations r = 0%nat) ∧
  (xs ≠ [] → Z.of_nat (iterations r) <= Z.log2 (Z.of_nat (length xs)) + 1).
Proof.
  intros Hlist r. subst r. split; [|split].
  - destruct (binary_search_iterative_sound sorted_list target h xs Hlist)
      as (z & Hz & _). by exists z.
  - intros ->. by rewrite (binary_search_iterative_nil sorted_list target h Hlist).
  - intros Hne. rewrite binary_search_iterative_run, Hlist.
    pose proof (while_loop_iterations sorted_list target h xs 0
      (Z.of_nat (length xs) - 1) Hlist ltac:(lia) ltac:(lia)) as Hb.
    unfold iterations in *. cbn [events].
    replace (Z.of_nat (length xs) - 1 + 1 - 0) with (Z.of_nat (length xs))
      in Hb by lia.
    unfold iteration_bound in Hb.
    destruct (Z.leb_spec (Z.of_nat (length xs)) 0) as [Hz|_]; [|exact Hb].
    destruct xs; [done | cbn in Hz; lia].
Qed.

Lemma binary_search_iterations_witness :
  example_heap !! example_loc = Some example_list ∧
  let r := binary_search_iterative example_loc 4 example_heap in
  (∃ z : Z, result r = Return z) ∧
  (example_list = [] → iterations r = 0%nat) ∧
  (example_list ≠ [] →
   Z.of_nat (iterations r) <= Z.log2 (Z.of_nat (length example_list)) + 1).
Proof.
  split; [reflexivity|].
  apply (binary_search_iterations example_heap example_loc example_list 4).
  reflexivity.
Defined.

(** The bound is reached: three iterations on the six-element example. *)
Example binary_search_iterations_tight :
  iterations (binary_search_iterative example_loc 4 example_heap) = 3%nat ∧
  Z.log2 (Z.of_nat (length example_list)) + 1 = 3.
Proof. split; reflexivity. Qed.

(** C6. Over a totally ordered element type the function is the algorithm
    the specification describes: bounds [0] and [length - 1]; while
    [low <= high] the midpoint [(low + high) // 2] is compared, an equal
    element returns [mid], a smaller one sets [low = mid + 1], a greater one
    sets [high = mid - 1]; and [-1] is returned, for "not found", exactly
    when the interval has become empty. *)
Theorem binary_search_refines_spec {A : Type} `{PyTotalOrder A}
    (h : heap A) (sorted_list : loc) (xs : list A) (target : A) :
  h !! sorted_list = Some xs →
  ∃ r : search_result,
    spec_binary_search xs target = Some r ∧
    result (binary_search_iterative sorted_list target h) = Return (signal r) ∧
    (r = NotFound ↔
     result (binary_search_iterative sorted_list target h) = Return (-1)).
Proof.
  intros Hlist. unfold spec_binary_search.
  rewrite binary_search_iterative_run, Hlist. cbn.
  destruct (while_loop_refines sorted_list target h xs 0
    (Z.of_nat (length xs) - 1) Hlist ltac:(lia) ltac:(lia))
    as (r & Hspec & Hres & Hidx).
  exists r. split; [exact Hspec|]. split; [exact Hres|].
  rewrite Hres. destruct r as [i|]; cbn; [|done].
  specialize (Hidx i eq_refl). split; [done|]. intros [= ?]. lia.
Qed.

Lemma binary_search_refines_spec_witness :
  example_heap !! example_loc = Some example_list ∧
  ∃ r : search_result,
    spec_binary_search example_list 7 = Some r ∧
    result (binary_search_iterative example_loc 7 example_heap)
      = Return (signal r) ∧
    (r = NotFound ↔
     result (binary_search_iterative example_loc 7 example_heap) = Return (-1)).
Proof.
  split; [reflexivity|].
  apply (binary_search_refines_spec example_heap example_loc example_list 7).
  reflexivity.
Defined.

(** C7. Two calls with the same list contents and the same target return
    the same result, whatever else the heap holds at either call. *)
Theorem binary_search_deterministic {A : Type} `{PyOrd A}
    (h1 h2 : heap A) (sorted_list : loc) (target : A) :
  h1 !! sorted_list = h2 !! sorted_list →
  result (binary_search_iterative sorted_list target h1) =
    result (binary_search_iterative sorted_list target h2).
Proof. apply binary_search_heap_indep. Qed.

Lemma binary_search_deterministic_witness :
  example_heap !! example_loc
    = (<[2%positive := [0; 0]]> example_heap) !! example_loc ∧
  result (binary_search_iterative example_loc 9 example_heap) =
    result (binary_search_iterative example_loc 9
              (<[2%positive := [0; 0]]> example_heap)).
Proof.
  split; [reflexivity|].
  apply (binary_search_deterministic example_heap
           (<[2%positive := [0; 0]]> example_heap) example_loc 9).
  reflexivity.
Defined.

(** C8. A call leaves the heap, and so the list, exactly as it was, and its
    result is a function of the list's contents and the target alone. *)
Theorem binary_search_pure {A : Type} `{PyOrd A} :
  (∀ (h : heap A) (sorted_list : loc) (target : A),
     heap_after (binary_search_iterative sorted_list target h) = h) ∧
  ∃ f : option (list A) → A → outcome Z,
    ∀ (h : heap A) (sorted_list : loc) (target : A),
      result (binary_search_iterative sorted_list target h)
        = f (h !! sorted_list) target.
Proof.
  split.
  - intros h sorted_list target. apply binary_search_iterative_heap.
  - exists (λ o target,
      match o with
      | Some xs => result (binary_search_iterative 1%positive target
                             {[ 1%positive := xs ]})
      | None => Raise TypeError
      end).
    intros h sorted_list target.
    destruct (h !! sorted_list) as [xs|] eqn:Hlist.
    + apply binary_search_heap_indep. by rewrite Hlist, lookup_singleton_eq.
    + by rewrite binary_search_iterative_run, Hlist.
Qed.

(** Calling again on the heap the first call left gives the same result. *)
Corollary binary_search_twice {A : Type} `{PyOrd A}
    (h : heap A) (sorted_list : loc) (target : A) :
  let first := binary_search_iterative sorted_list target h in
  let second := binary_search_iterative sorted_list target (heap_after first) in
  result second = result first ∧ heap_after second = h.
Proof.
  cbn zeta. by rewrite !binary_search_iterative_heap.
Qed.

(** C9. On [[1; 3; 5; 7; 9; 11]] the search for [7] returns index [3] and
    the search for [4] returns [-1]; on the empty list the search for [0]
    returns [-1]. *)
Theorem binary_search_examples (h h' : heap Z) (l l' : loc) :
  h !! l = Some [1; 3; 5; 7; 9; 11] →
  h' !! l' = Some [] →
  result (binary_search_iterative l 7 h) = Return 3 ∧
  result (binary_search_iterative l 4 h) = Return (-1) ∧
  result (binary_search_iterative l' 0 h') = Return (-1).
Proof.
  intros Hl Hl'.
  rewrite (binary_search_heap_indep l example_loc 7 h example_heap),
    (binary_search_heap_indep l example_loc 4 h example_heap),
    (binary_search_heap_indep l' example_loc 0 h' empty_list_heap)
    by (rewrite ?Hl, ?Hl'; reflexivity).
  repeat split; vm_compute; reflexivity.
Qed.

Lemma binary_search_examples_witness :
  (example_heap !! example_loc = Some [1; 3; 5; 7; 9; 11] ∧
   empty_list_heap !! example_loc = Some []) ∧
  result (binary_search_iterative example_loc 7 example_heap) = Return 3 ∧
  result (binary_search_iterative example_loc 4 example_heap) = Return (-1) ∧
  result (binary_search_iterative example_loc 0 empty_list_heap) = Return (-1).
Proof.
  split; [split; reflexivity|].
  apply (binary_search_examples example_heap empty_list_heap
           example_loc example_loc); reflexivity.
Defined.

(** C10. For every list, sorted or not, and every target: (a) the loop,
    entered with [0 <= low] and [high <= len - 1], evaluates
    [sorted_list[mid]] only at indices inside [[low, high]], so the call
    reads only at indices in [[0, len - 1]] and raises nothing; (b) a
    non-negative result is an index whose element is [==] to the target. *)
Theorem binary_search_safe {A : Type} `{PyOrd A}
    (h : heap A) (sorted_list : loc) (xs : list A) (target : A) :
  h !! sorted_list = Some xs →
  let len := Z.of_nat (length xs) in
  let r := binary_search_iterative sorted_list target h in
  (∀ low high : Z, 0 <= low → high <= len - 1 →
     Forall (λ e, ∃ mid : Z, e = EvGetItem sorted_list mid ∧ low <= mid <= high)
       (events (while_loop sorted_list target low high h))) ∧
  Forall (λ e, ∃ mid : Z, e = EvGetItem sorted_list mid ∧ 0 <= mid <= len - 1)
    (events r) ∧
  (∀ e : exn, result r ≠ Raise e) ∧
  (∀ z : Z, result r = Return z → 0 <= z →
     ∃ w : A, xs !! Z.to_nat z = Some w ∧ py_eq w target = true).
Proof.
  intros Hlist len r. subst len r.
  assert (∀ low high : Z, 0 <= low → high <= Z.of_nat (length xs) - 1 →
     Forall (λ e, ∃ mid : Z, e = EvGetItem sorted_list mid ∧ low <= mid <= high)
       (events (while_loop sorted_list target low high h))) as Hloop.
  { intros low high Hlow Hhigh.
    by apply (while_loop_safe sorted_list target h xs); [|lia..]. }
  split; [exact Hloop|].
  destruct (binary_search_iterative_sound sorted_list target h xs Hlist)
    as (z & Hz & Hsound).
  split; [|split].
  - rewrite binary_search_iterative_run, Hlist. cbn. apply Hloop; lia.
  - intros e. rewrite Hz. discriminate.
  - intros z' Hz' Hnonneg. rewrite Hz in Hz'. injection Hz' as <-.
    destruct Hsound as [->|[_ Hw]]; [lia | exact Hw].
Qed.

Lemma binary_search_safe_witness :
  unsorted_heap !! example_loc = Some unsorted_list ∧
  let len := Z.of_nat (length unsorted_list) in
  let r := binary_search_iterative example_loc 4 unsorted_heap in
  (∀ low high : Z, 0 <= low → high <= len - 1 →
     Forall (λ e, ∃ mid : Z, e = EvGetItem example_loc mid ∧ low <= mid <= high)
       (events (while_loop example_loc 4 low high unsorted_heap))) ∧
  Forall (λ e, ∃ mid : Z, e = EvGetItem example_loc mid ∧ 0 <= mid <= len - 1)
    (events r) ∧
  (∀ e : exn, result r ≠ Raise e) ∧
  (∀ z : Z, result r = Return z → 0 <= z →
     ∃ w : Z, unsorted_list !! Z.to_nat z = Some w ∧ py_eq w 4 = true).
Proof.
  split; [reflexivity|].
  apply (binary_search_safe unsorted_heap example_loc unsorted_list 4).
  reflexivity.
Defined.

(** * Further properties of [binary_search_iterative] *)

Section MoreFacts.
Context {A : Type} `{PyOrd A}.

(** The loop never evaluates the subscript twice at one index. *)
Lemma while_loop_reads_once (sorted_list : loc) (target : A) (h : heap A)
    (xs : list A) (low high : Z) :
  h !! sorted_list = Some xs →
  0 <= low → high < Z.of_nat (length xs) →
  NoDup (ev_index <$> events (while_loop sorted_list target low high h)).
Proof.
  intros Hlist.
  apply (while_loop_ind_in_range sorted_list target h xs Hlist
    (λ low high r, NoDup (ev_index <$> events r))); clear low high; cbn.
  - intros low high _. constructor.
  - intros low high v _ _ _ _ _. repeat constructor. set_solver.
  - intros low high v r Hlow Hle Hhigh Hv _ _ -> IH.
    pose proof (mid_bounds low high Hle) as Hmid.
    constructor; [|exact IH].
    destruct (while_loop_safe sorted_list target h xs ((low + high) / 2 + 1)
      high Hlist ltac:(lia) ltac:(lia)) as [Hev _].
    rewrite list_elem_of_fmap. intros (e & Hidx & Hin).
    rewrite Forall_forall in Hev. destruct (Hev e Hin) as (i & -> & Hi).
    cbn in Hidx. lia.
  - intros low high v r Hlow Hle Hhigh Hv _ _ -> IH.
    pose proof (mid_bounds low high Hle) as Hmid.
    constructor; [|exact IH].
    destruct (while_loop_safe sorted_list target h xs low
      ((low + high) / 2 - 1) Hlist ltac:(lia) ltac:(lia)) as [Hev _].
    rewrite list_elem_of_fmap. intros (e & Hidx & Hin).
    rewrite Forall_forall in Hev. destruct (Hev e Hin) as (i & -> & Hi).
    cbn in Hidx. lia.
Qed.

(** An unsuccessful run of the loop cannot be short: each iteration keeps
    at least half of the interval, rounded down. *)
Lemma while_loop_iterations_lower (sorted_list : loc) (target : A) (h : heap A)
    (xs : list A) (low high : Z) :
  h !! sorted_list = Some xs →
  0 <= low → high < Z.of_nat (length xs) →
  result (while_loop sorted_list target low high h) = Return (-1) →
  Z.log2 (high + 1 - low + 1)
    <= Z.of_nat (iterations (while_loop sorted_list target low high h)).
Proof.
  intros Hlist.
  apply (while_loop_ind_in_range sorted_list target h xs Hlist
    (λ low high r, result r = Return (-1) →
       Z.log2 (high + 1 - low + 1) <= Z.of_nat (iterations r)));
    clear low high; unfold iterations; cbn [events result length].
  - intros low high Hgt _.
    pose proof (Z.log2_le_mono (high + 1 - low + 1) 1 ltac:(lia)) as Hl.
    change (Z.log2 1) with 0 in Hl. lia.
  - intros low high v Hlow Hle Hhigh _ _ [= Hmid].
    pose proof (mid_bounds low high Hle). lia.
  - intros low high v r Hlow Hle Hhigh _ _ _ _ IH Hres.
    specialize (IH Hres).
    pose proof (log2_half (high + 1 - low + 1) ltac:(lia)) as Hhalf.
    pose proof (Z.log2_le_mono ((high + 1 - low + 1) / 2)
      (high + 1 - ((low + high) / 2 + 1) + 1)) as Hmono.
    assert ((high + 1 - low + 1) / 2 <= high + 1 - ((low + high) / 2 + 1) + 1).
    { apply Z.div_le_upper_bound; [lia|].
      pose proof (Z.mul_div_le (low + high) 2 ltac:(lia)). lia. }
    lia.
  - intros low high v r Hlow Hle Hhigh _ _ _ _ IH Hres.
    specialize (IH Hres).
    pose proof (log2_half (high + 1 - low + 1) ltac:(lia)) as Hhalf.
    pose proof (Z.log2_le_mono ((high + 1 - low + 1) / 2)
      ((low + high) / 2 - 1 + 1 - low + 1)) as Hmono.
    assert ((high + 1 - low + 1) / 2 <= (low + high) / 2 - 1 + 1 - low + 1).
    { pose proof (Z.div_mod (low + high) 2 ltac:(lia)).
      pose proof (Z.mod_pos_bound (low + high) 2 ltac:(lia)).
      pose proof (Z.mul_div_le (high + 1 - low + 1) 2 ltac:(lia)). lia. }
    lia.
Qed.

(** The loop stops at the first match it reads: every element read before
    the end of the run is not [==] to the target, and a returned index is the
    last one read. *)
Lemma while_loop_first_match (sorted_list : loc) (target : A) (h : heap A)
    (xs : list A) (low high : Z) :
  h !! sorted_list = Some xs →
  0 <= low → high < Z.of_nat (length xs) →
  let r := while_loop sorted_list target low high h in
  let differs := λ e : event,
    ∃ w, xs !! Z.to_nat (ev_index e) = Some w ∧ py_eq w target = false in
  (result r = Return (-1) → Forall differs (events r)) ∧
  (∀ z, result r = Return z → 0 <= z →
     ∃ before, events r = before ++ [EvGetItem sorted_list z] ∧
               Forall differs before).
Proof.
  intros Hlist. cbn zeta.
  apply (while_loop_ind_in_range sorted_list target h xs Hlist
    (λ low high r,
      (result r = Return (-1) →
       Forall (λ e, ∃ w, xs !! Z.to_nat (ev_index e) = Some w ∧
                         py_eq w target = false) (events r)) ∧
      (∀ z, result r = Return z → 0 <= z →
         ∃ before, events r = before ++ [EvGetItem sorted_list z] ∧
           Forall (λ e, ∃ w, xs !! Z.to_nat (ev_index e) = Some w ∧
                             py_eq w target = false) before)));
    clear low high; cbn [events result].
  - intros low high _. split; [constructor|]. intros z [= <-]. lia.
  - intros low high v Hlow Hle Hhigh _ _.
    pose proof (mid_bounds low high Hle). split.
    + intros [= ?]. lia.
    + intros z [= <-] _. exists []. split; [reflexivity | constructor].
  - intros low high v r _ _ _ Hv Heq _ _ [IHnone IHsome]. split.
    + intros Hres. constructor; [by exists v | by apply IHnone].
    + intros z Hres Hz. destruct (IHsome z Hres Hz) as (before & -> & Hb).
      exists (EvGetItem sorted_list ((low + high) / 2) :: before).
      split; [reflexivity|]. constructor; [by exists v | exact Hb].
  - intros low high v r _ _ _ Hv Heq _ _ [IHnone IHsome]. split.
    + intros Hres. constructor; [by exists v | by apply IHnone].
    + intros z Hres Hz. destruct (IHsome z Hres Hz) as (before & -> & Hb).
      exists (EvGetItem sorted_list ((low + high) / 2) :: before).
      split; [reflexivity|]. constructor; [by exists v | exact Hb].
Qed.

Section MoreOrdered.
Context `{!PyTotalOrder A}.



Lemma py_lt_asym (x y : A) : py_lt x y = true → py_lt y x = false.
Proof.
  intros Hxy. destruct (py_lt y x) eqn:Hyx; [|reflexivity].
  by rewrite <- (py_lt_irrefl x), (py_lt_trans x y x Hxy Hyx).
Qed.

Lemma is_strictly_sorted_tail (x : A) (xs : list A) :
  is_strictly_sorted (x :: xs) = true → is_strictly_sorted xs = true.
Proof.
  destruct xs as [|y ys]; [reflexivity|]. cbn [is_strictly_sorted].
  rewrite andb_true_iff. tauto.
Qed.

Lemma is_strictly_sorted_sorted (xs : list A) :
  is_strictly_sorted xs = true → is_sorted xs = true.
Proof.
  induction xs as [|x [|y ys] IH]; [reflexivity..|].
  cbn [is_strictly_sorted is_sorted]. rewrite !andb_true_iff.
  intros [Hxy Hs]. split; [|by apply IH].
  unfold py_le. by rewrite (py_lt_asym x y Hxy).
Qed.

Lemma is_strictly_sorted_head (x : A) (xs : list A) (j : nat) (y : A) :
  is_strictly_sorted (x :: xs) = true → xs !! j = Some y → py_lt x y = true.
Proof.
  revert x xs. induction j as [|j IH]; intros x xs Hs Hj.
  - destruct xs as [|x' xs]; [discriminate|]. cbn in Hj. injection Hj as ->.
    cbn [is_strictly_sorted] in Hs. by apply andb_true_iff in Hs as [? _].
  - destruct xs as [|x' xs]; [discriminate|].
    cbn [is_strictly_sorted] in Hs. apply andb_true_iff in Hs as [Hxx' Hs].
    eapply py_lt_trans; [exact Hxx'|]. eapply IH; [exact Hs | exact Hj].
Qed.

(** In a strictly sorted list an earlier element is below a later one. *)
Lemma is_strictly_sorted_lookup (xs : list A) (i j : nat) (x y : A) :
  is_strictly_sorted xs = true → (i < j)%nat →
  xs !! i = Some x → xs !! j = Some y → py_lt x y = true.
Proof.
  revert xs j. induction i as [|i IH]; intros xs j Hs Hij Hi Hj.
  - destruct xs as [|x0 xs]; [discriminate|]. cbn in Hi. injection Hi as ->.
    destruct j as [|j]; [lia|]. by eapply is_strictly_sorted_head.
  - destruct xs as [|x0 xs]; [discriminate|].
    destruct j as [|j]; [lia|].
    eapply (IH xs j);
      [by eapply is_strictly_sorted_tail | lia | exact Hi | exact Hj].
Qed.

(** On a sorted list the call returns [-1] only if nothing matches. *)
Lemma binary_search_iterative_complete (sorted_list : loc) (target : A)
    (h : heap A) (xs : list A) (i : nat) (w : A) :
  h !! sorted_list = Some xs → is_sorted xs = true →
  xs !! i = Some w → py_eq w target = true →
  result (binary_search_iterative sorted_list target h) ≠ Return (-1).
Proof.
  intros Hlist Hsorted Hi Heq.
  pose proof (lookup_lt_Some _ _ _ Hi) as Hlen.
  rewrite binary_search_iterative_run, Hlist. cbn.
  apply while_loop_complete with (xs := xs); [done | done | lia | lia |].
  exists (Z.of_nat i), w. rewrite Nat2Z.id. split; [lia | done].
Qed.

End MoreOrdered.

End MoreFacts.

(** X1. On a one-element list the call returns [0] when the element is [==]
    to the target and [-1] otherwise. *)
Theorem binary_search_singleton {A : Type} `{PyOrd A}
    (h : heap A) (sorted_list : loc) (x target : A) :
  h !! sorted_list = Some [x] →
  result (binary_search_iterative sorted_list target h)
    = Return (if py_eq x target then 0 else -1).
Proof.
  intros Hlist. rewrite binary_search_iterative_run, Hlist.
  change (Z.of_nat (length [x]) - 1) with 0. cbn [result].
  rewrite while_loop_run, Hlist.
  change (0 <=? 0) with true. change ((0 + 0) / 2) with 0. cbn zeta.
  change (list_getitem [x] 0) with (Some x). cbn match.
  destruct (py_eq x target); [reflexivity|].
  destruct (py_lt x target); rewrite while_loop_run; reflexivity.
Qed.

Lemma binary_search_singleton_witness :
  singleton_heap !! example_loc = Some [7] ∧
  result (binary_search_iterative example_loc 8 singleton_heap)
    = Return (if py_eq 7 8 then 0 else -1).
Proof.
  split; [reflexivity|].
  apply (binary_search_singleton singleton_heap example_loc 7 8). reflexivity.
Defined.

(** X2. On a sorted list over a total order the call returns [-1] exactly
    when no element is [==] to the target: a result other than [-1] is a
    membership test. *)
Theorem binary_search_not_found_iff {A : Type} `{PyTotalOrder A}
    (h : heap A) (sorted_list : loc) (xs : list A) (target : A) :
  h !! sorted_list = Some xs →
  is_sorted xs = true →
  result (binary_search_iterative sorted_list target h) = Return (-1) ↔
  ∀ (i : nat) (w : A), xs !! i = Some w → py_eq w target = false.
Proof.
  intros Hlist Hsorted. split.
  - intros Hres i w Hi. destruct (py_eq w target) eqn:Heq; [|reflexivity].
    by destruct (binary_search_iterative_complete sorted_list target h xs i w).
  - intros Habsent.
    destruct (binary_search_iterative_sound sorted_list target h xs Hlist)
      as (z & Hz & [->|[_ (w & Hw & Heq)]]); [exact Hz|].
    rewrite (Habsent _ _ Hw) in Heq. discriminate.
Qed.

Lemma binary_search_not_found_iff_witness :
  (example_heap !! example_loc = Some example_list ∧
   is_sorted example_list = true) ∧
  (result (binary_search_iterative example_loc 6 example_heap) = Return (-1) ↔
   ∀ (i : nat) (w : Z), example_list !! i = Some w → py_eq w 6 = false).
Proof.
  split; [split; reflexivity|].
  apply (binary_search_not_found_iff example_heap example_loc example_list 6);
    reflexivity.
Defined.

(** X3. On a strictly increasing list over a total order, searching for the
    element at index [i] returns [i] itself. *)
Theorem binary_search_strict_index {A : Type} `{PyTotalOrder A}
    (h : heap A) (sorted_list : loc) (xs : list A) (i : nat) (x : A) :
  h !! sorted_list = Some xs →
  is_strictly_sorted xs = true →
  xs !! i = Some x →
  result (binary_search_iterative sorted_list x h) = Return (Z.of_nat i).
Proof.
  intros Hlist Hstrict Hi.
  pose proof (is_strictly_sorted_sorted xs Hstrict) as Hsorted.
  destruct (binary_search_iterative_sound sorted_list x h xs Hlist)
    as (z & Hz & Hsound).
  destruct Hsound as [->|[Hrange (w & Hw & Heq)]].
  { by destruct (binary_search_iterative_complete sorted_list x h xs i x
      Hlist Hsorted Hi (py_eq_refl x)). }
  rewrite Hz. f_equal.
  destruct (Nat.lt_trichotomy (Z.to_nat z) i) as [Hlt|[Heqi|Hgt]].
  - pose proof (is_strictly_sorted_lookup xs _ _ w x Hstrict Hlt Hw Hi) as Hwx.
    rewrite (py_lt_eq_l w x x Heq), py_lt_irrefl in Hwx. discriminate.
  - lia.
  - pose proof (is_strictly_sorted_lookup xs _ _ x w Hstrict Hgt Hi Hw) as Hxw.
    rewrite (py_lt_eq_r w x x Heq), py_lt_irrefl in Hxw. discriminate.
Qed.

Lemma binary_search_strict_index_witness :
  (example_heap !! example_loc = Some example_list ∧
   is_strictly_sorted example_list = true ∧
   example_list !! 4%nat = Some 9) ∧
  result (binary_search_iterative example_loc 9 example_heap)
    = Return (Z.of_nat 4).
Proof.
  split; [repeat split|].
  apply (binary_search_strict_index example_heap example_loc example_list
           4%nat 9); reflexivity.
Defined.

(** X4. Whatever the list and the target, a call never evaluates
    [sorted_list[mid]] twice at the same index. *)
Theorem binary_search_reads_once {A : Type} `{PyOrd A}
    (h : heap A) (sorted_list : loc) (xs : list A) (target : A) :
  h !! sorted_list = Some xs →
  NoDup (ev_index <$> events (binary_search_iterative sorted_list target h)).
Proof.
  intros Hlist. rewrite binary_search_iterative_run, Hlist. cbn.
  apply (while_loop_reads_once sorted_list target h xs); [done | lia..].
Qed.

Lemma binary_search_reads_once_witness :
  unsorted_heap !! example_loc = Some unsorted_list ∧
  NoDup (ev_index <$>
           events (binary_search_iterative example_loc 5 unsorted_heap)).
Proof.
  split; [reflexivity|].
  apply (binary_search_reads_once unsorted_heap example_loc unsorted_list 5).
  reflexivity.
Defined.

(** X5. A call that returns [-1] on a list of [n] elements has run the loop
    at least [floor (log2 (n + 1))] times: an unsuccessful search is never
    cut short. *)
Theorem binary_search_iterations_lower {A : Type} `{PyOrd A}
    (h : heap A) (sorted_list : loc) (xs : list A) (target : A) :
  h !! sorted_list = Some xs →
  result (binary_search_iterative sorted_list target h) = Return (-1) →
  Z.log2 (Z.of_nat (length xs) + 1)
    <= Z.of_nat (iterations (binary_search_iterative sorted_list target h)).
Proof.
  intros Hlist. rewrite binary_search_iterative_run, Hlist. cbn. intros Hres.
  pose proof (while_loop_iterations_lower sorted_list target h xs 0
    (Z.of_nat (length xs) - 1) Hlist ltac:(lia) ltac:(lia) Hres) as Hb.
  unfold iterations in *. cbn [events].
  replace (Z.of_nat (length xs) - 1 + 1 - 0 + 1)
    with (Z.of_nat (length xs) + 1) in Hb by lia.
  exact Hb.
Qed.

Lemma binary_search_iterations_lower_witness :
  (example_heap !! example_loc = Some example_list ∧
   result (binary_search_iterative example_loc 0 example_heap) = Return (-1)) ∧
  Z.log2 (Z.of_nat (length example_list) + 1)
    <= Z.of_nat (iterations (binary_search_iterative example_loc 0 example_heap)).
Proof.
  split; [split; reflexivity|].
  apply (binary_search_iterations_lower example_heap example_loc
           example_list 0); reflexivity.
Defined.



(** X7. A call stops at the first match it reads: a returned index is the
    last index read and every element read before it is not [==] to the
    target; and when [-1] is returned no element read was [==] to the
    target. *)
Theorem binary_search_first_match {A : Type} `{PyOrd A}
    (h : heap A) (sorted_list : loc) (xs : list A) (target : A) :
  h !! sorted_list = Some xs →
  let r := binary_search_iterative sorted_list target h in
  let differs := λ e : event,
    ∃ w, xs !! Z.to_nat (ev_index e) = Some w ∧ py_eq w target = false in
  (result r = Return (-1) → Forall differs (events r)) ∧
  (∀ z, result r = Return z → 0 <= z →
     ∃ before, events r = before ++ [EvGetItem sorted_list z] ∧
               Forall differs before).
Proof.
  intros Hlist. cbn zeta. rewrite binary_search_iterative_run, Hlist. cbn.
  apply (while_loop_first_match sorted_list target h xs); [done | lia..].
Qed.

Lemma binary_search_first_match_witness :
  duplicates_heap !! example_loc = Some duplicates_list ∧
  let r := binary_search_iterative example_loc 4 duplicates_heap in
  let differs := λ e : event,
    ∃ w, duplicates_list !! Z.to_nat (ev_index e) = Some w ∧ py_eq w 4 = false in
  (result r = Return (-1) → Forall differs (events r)) ∧
  (∀ z, result r = Return z → 0 <= z →
     ∃ before, events r = before ++ [EvGetItem example_loc z] ∧
               Forall differs before).
Proof.
  split; [reflexivity|].
  apply (binary_search_first_match duplicates_heap example_loc
           duplicates_list 4). reflexivity.
Defined.
